(** * autoapprove.py: the pull-request filter-and-action pipeline

    A shallow embedding of [src/autoapprove.py] and the properties of its
    fetch / filter / approve / merge pipeline.

    The script talks to the outside through three channels only: the shell
    commands it hands to [subprocess.Popen] ([run_command]), the messages it
    hands to [logging], and the one read of [prs.json].  The embedding
    threads the first two as a chronological list of events and takes the
    answers of the outside (whether a command can be spawned and what it
    returns, what [json.load] finds in the file) from a [world].
    Python exceptions are explicit: every function returns either a value or
    the exception that escapes it. *)

From Stdlib Require Import List String Ascii ZArith NArith Bool Lia.
From Stdlib.Strings Require Import Byte.
From Stdlib.Floats Require Import SpecFloat.
Import ListNotations.

Local Open Scope list_scope.

(* ================================================================== *)
(** ** Strings *)

(** A Python [str] is held as a Stdlib [string]: the UTF-8 text of the
    value.  UTF-8 is self-synchronising, so containment of one text in
    another is the same question on the bytes as on the code points. *)

Module Str.

(** [needle] starts [hay]. *)
Fixpoint startswith (hay needle : string) {struct needle} : bool :=
  match needle with
  | EmptyString => true
  | String a needle' =>
      match hay with
      | EmptyString => false
      | String b hay' => Ascii.eqb a b && startswith hay' needle'
      end
  end.

(** Python's [needle in hay] on two strings: [needle] starts some
    suffix of [hay]. *)
Fixpoint contains (needle hay : string) : bool :=
  startswith hay needle ||
  match hay with
  | EmptyString => false
  | String _ hay' => contains needle hay'
  end.

(** The text holds the character U+0000. *)
Fixpoint has_nul (s : string) : bool :=
  match s with
  | EmptyString => false
  | String c s' => Ascii.eqb c Ascii.zero || has_nul s'
  end.

(** What containment means: [hay] is [needle] with some text before it and
    some text after it. *)
Definition substring_of (needle hay : string) : Prop :=
  exists before after : string,
    hay = (before ++ needle ++ after)%string.

(** One string per character of [s], as iterating a [str] gives them: a
    new item starts at every byte that is not a UTF-8 continuation byte
    (10xxxxxx). *)
Definition is_continuation (c : ascii) : bool :=
  let n := N_of_ascii c in (128 <=? n)%N && (n <? 192)%N.

Fixpoint chars_from (cur : string) (s : string) : list string :=
  match s with
  | EmptyString => [cur]
  | String c s' =>
      if is_continuation c
      then chars_from (cur ++ String c EmptyString)%string s'
      else cur :: chars_from (String c EmptyString) s'
  end.

Definition chars (s : string) : list string :=
  match s with
  | EmptyString => []
  | String c s' => chars_from (String c EmptyString) s'
  end.

End Str.

(* ================================================================== *)
(** ** Bytes and their decoding *)

Module Bytes.

Definition bytes : Type := list byte.

Definition inr (lo hi n : N) : bool := ((lo <=? n) && (n <=? hi))%N.

(** Well-formed UTF-8, as the strict decoder behind [bytes.decode()]
    accepts it: shortest forms only, no surrogates, nothing above
    U+10FFFF. *)
Fixpoint valid_utf8 (l : list N) : bool :=
  match l with
  | [] => true
  | b0 :: r0 =>
      if inr 0 127 b0 then valid_utf8 r0
      else
        match r0 with
        | [] => false
        | b1 :: r1 =>
            if inr 194 223 b0 then inr 128 191 b1 && valid_utf8 r1
            else
              match r1 with
              | [] => false
              | b2 :: r2 =>
                  if inr 224 239 b0 then
                    (if (b0 =? 224)%N then inr 160 191 b1
                     else if (b0 =? 237)%N then inr 128 159 b1
                     else inr 128 191 b1)
                    && inr 128 191 b2 && valid_utf8 r2
                  else
                    match r2 with
                    | [] => false
                    | b3 :: r3 =>
                        inr 240 244 b0
                        && (if (b0 =? 240)%N then inr 144 191 b1
                            else if (b0 =? 244)%N then inr 128 143 b1
                            else inr 128 191 b1)
                        && inr 128 191 b2 && inr 128 191 b3
                        && valid_utf8 r3
                    end
              end
        end
  end.

(** [b.decode()]: the text when [b] is well-formed UTF-8, [None] when the
    call raises [UnicodeDecodeError]. *)
Definition decode (b : bytes) : option string :=
  if valid_utf8 (map Byte.to_N b)
  then Some (string_of_list_byte b)
  else None.

End Bytes.

(* ================================================================== *)
(** ** Python values, exceptions and the built-ins the script calls *)

#[local] Set Warnings "-register-all".

(** What [json.load] can hand back: [None], [bool], [int], [float], [str],
    [list], and [dict] with string keys (kept in insertion order, one entry
    per key). *)
Inductive pyval : Type :=
| PNone
| PBool (b : bool)
| PInt (n : Z)
| PFloat (f : spec_float)
| PStr (s : string)
| PList (items : list pyval)
| PDict (entries : list (string * pyval)).

(** The exceptions that can escape the script.  [json.JSONDecodeError] is
    not among them: its only source is [json.load], where the script catches
    it. *)
Inductive exception : Type :=
| KeyError (key : string)
| TypeError
| AttributeError
| UnicodeDecodeError
| ValueError
| OSError (errno : Z)
| OtherError (name : string).

Inductive result (A : Type) : Type :=
| Return (a : A)
| Raise (e : exception).
Arguments Return {A} a.
Arguments Raise {A} e.

(** The two library functions whose tables are not part of the script:
    [str.lower] and the text [format] gives for a value that is not a
    string. *)
Class Builtins : Type := {
  lower : string -> string;
  repr : pyval -> string
}.

Module Py.

(** [format(v, '')], what an f-string field [{v}] expands to. *)
Definition format `{Builtins} (v : pyval) : string :=
  match v with
  | PStr s => s
  | _ => repr v
  end.

(** [bool(v)], the test behind [if not v]. *)
Definition truthy (v : pyval) : bool :=
  match v with
  | PNone => false
  | PBool b => b
  | PInt n => negb (n =? 0)%Z
  | PFloat (S754_zero _) => false
  | PFloat _ => true
  | PStr s => negb (String.eqb s EmptyString)
  | PList items => match items with [] => false | _ => true end
  | PDict entries => match entries with [] => false | _ => true end
  end.

Fixpoint lookup (key : string) (entries : list (string * pyval))
  : option pyval :=
  match entries with
  | [] => None
  | (k, v) :: rest => if String.eqb k key then Some v else lookup key rest
  end.

(** [v[key]] with a string key. *)
Definition getitem (v : pyval) (key : string) : result pyval :=
  match v with
  | PDict entries =>
      match lookup key entries with
      | Some x => Return x
      | None => Raise (KeyError key)
      end
  | _ => Raise TypeError
  end.

(** [v.lower()]. *)
Definition lower_method `{Builtins} (v : pyval) : result string :=
  match v with
  | PStr s => Return (lower s)
  | _ => Raise AttributeError
  end.

(** The items [for x in v] runs over. *)
Definition iter (v : pyval) : result (list pyval) :=
  match v with
  | PList items => Return items
  | PDict entries => Return (map (fun e => PStr (fst e)) entries)
  | PStr s => Return (map PStr (Str.chars s))
  | _ => Raise TypeError
  end.

End Py.

(* ================================================================== *)
(** ** The outside world and the effects of the script *)

Inductive level : Type := INFO | WARNING | ERROR.

(** What an observer sees of a run, in order: [Run command] when
    [run_command] is called with [command], [Log lvl message] when a
    message is logged. *)
Inductive event : Type :=
| Run (command : string)
| Log (lvl : level) (message : string).

Definition trace : Type := list event.

(** The triple [run_command] returns. *)
Record completed : Type := {
  returncode : Z;
  stdout : Bytes.bytes;
  stderr : Bytes.bytes
}.

(** What the [with open(...)]/[json.load] block of [fetch_pull_requests]
    ends in. *)
Inductive load_outcome : Type :=
| Loaded (v : pyval)
| JSONDecodeError (text : string)
| LoadRaises (e : exception).

(** The outside world of one run, as a function of the commands the script
    has called so far, oldest first.  [shell past command] is what handing
    [command] to the shell comes to: the triple of the completed process, or
    the exception [subprocess.Popen] raises when the process cannot be
    spawned ([OSError] for a command line that is too long, for a failed
    fork, ...).  [prs_json past] is what reading the file gives at that
    moment. *)
Record world : Type := {
  shell : list string -> string -> result completed;
  prs_json : list string -> load_outcome
}.

Fixpoint commands (t : trace) : list string :=
  match t with
  | [] => []
  | Run c :: t' => c :: commands t'
  | Log _ _ :: t' => commands t'
  end.

(** A computation reads the events so far and yields its result with the
    events it adds. *)
Definition M (A : Type) : Type := trace -> result A * trace.

Definition ret {A} (a : A) : M A := fun _ => (Return a, []).

Definition raise {A} (e : exception) : M A := fun _ => (Raise e, []).

Definition bind {A B} (m : M A) (k : A -> M B) : M B :=
  fun past =>
    match m past with
    | (Return a, t1) =>
        match k a (past ++ t1) with
        | (r, t2) => (r, t1 ++ t2)
        end
    | (Raise e, t1) => (Raise e, t1)
    end.

Definition lift {A} (r : result A) : M A := fun _ => (r, []).

Declare Scope py_scope.
Delimit Scope py_scope with py.
Notation "x <- m ;; k" := (bind m (fun x => k))
  (at level 100, m at next level, right associativity) : py_scope.
Notation "m ;; k" := (bind m (fun _ => k))
  (at level 100, right associativity) : py_scope.

(** [logging.info], [logging.warning], [logging.error]. *)
Definition logging (lvl : level) (message : string) : M unit :=
  fun _ => (Return tt, [Log lvl message]).

(** [b.decode()] inside a computation. *)
Definition decode (b : Bytes.bytes) : M string :=
  match Bytes.decode b with
  | Some s => ret s
  | None => raise UnicodeDecodeError
  end.

(** [for x in items: body(x)]. *)
Fixpoint for_each {A} (items : list A) (body : A -> M unit) : M unit :=
  match items with
  | [] => ret tt
  | x :: rest => (body x ;; for_each rest body)%py
  end.

(* ================================================================== *)
(** ** The script *)

Local Open Scope string_scope.

Definition KEYWORD : string := "YOURFAVOURITEKEYWORD".
Definition APPROVAL_MESSAGE : string := "lit".

(** The double-quote character that the f-strings embed. *)
Definition dquote : string := String (ascii_of_nat 34) EmptyString.

Definition search_command : string :=
  "gh search prs --state=open --review-requested=@me --json url,title -L 100 > prs.json".

Section Script.

Context {B : Builtins} (w : world).

(** What the call [run_command(command)] comes to after the events [past]:
    [subprocess.Popen] raises [ValueError] (embedded null byte) for a command
    with a U+0000 in it, before any process is spawned; otherwise the world
    decides. *)
Definition answer (past : trace) (command : string) : result completed :=
  if Str.has_nul command then Raise ValueError
  else shell w (commands past) command.

(** [run_command]: the command is handed to [subprocess.Popen]; the script
    gets the triple of the completed process back, or the exception that
    [Popen] raised. *)
Definition run_command (command : string) : M completed :=
  fun past => (answer past command, [Run command]).

(** The body of [with open('prs.json', 'r') as file: json.load(file)]. *)
Definition json_load_prs : M load_outcome :=
  fun past => (Return (prs_json w (commands past)), []).

Definition fetch_pull_requests : M pyval :=
  (c <- run_command search_command ;;
   if negb (returncode c =? 0)%Z then
     (text <- decode (stderr c) ;;
      logging ERROR ("Failed to search PRs: " ++ text) ;;
      ret (PList []))
   else
     (loaded <- json_load_prs ;;
      match loaded with
      | Loaded v => ret v
      | JSONDecodeError e =>
          (logging ERROR ("Failed to parse JSON: " ++ e) ;;
           ret (PList []))
      | LoadRaises x => raise x
      end))%py.

(** [KEYWORD.lower() in pr_title.lower()]. *)
Definition keyword_match (pr_title : pyval) : result bool :=
  match Py.lower_method pr_title with
  | Return title_lower => Return (Str.contains (lower KEYWORD) title_lower)
  | Raise e => Raise e
  end.

Definition skip_message (pr_title : pyval) : string :=
  "Skipping PR " ++ dquote ++ Py.format pr_title ++ dquote
    ++ " - no keyword match".

Definition approve_command (repo_url : pyval) : string :=
  "gh pr review " ++ Py.format repo_url ++ " --approve -b "
    ++ dquote ++ APPROVAL_MESSAGE ++ dquote.

Definition merge_command (repo_url : pyval) : string :=
  "gh pr merge " ++ Py.format repo_url
    ++ " --squash --auto --merge --delete-branch -A email".

Definition process_pull_request (pr : pyval) : M unit :=
  (pr_title <- lift (Py.getitem pr "title") ;;
   repo_url <- lift (Py.getitem pr "url") ;;
   matched <- lift (keyword_match pr_title) ;;
   if negb matched then
     logging INFO (skip_message pr_title)
   else
     (c <- run_command (approve_command repo_url) ;;
      if negb (returncode c =? 0)%Z then
        (text <- decode (stderr c) ;;
         logging ERROR
           ("Failed to approve PR " ++ Py.format repo_url ++ ": " ++ text))
      else
        (logging INFO ("Successfully approved PR: " ++ Py.format repo_url) ;;
         c' <- run_command (merge_command repo_url) ;;
         if (returncode c' =? 0)%Z then
           logging INFO ("Successfully merged PR: " ++ Py.format repo_url)
         else
           (text <- decode (stderr c') ;;
            logging ERROR
              ("Failed to merge PR " ++ Py.format repo_url ++ ": " ++ text)))))%py.

Definition main : M unit :=
  (pull_requests <- fetch_pull_requests ;;
   if negb (Py.truthy pull_requests) then
     logging WARNING "No pull requests found"
   else
     (items <- lift (Py.iter pull_requests) ;;
      for_each items process_pull_request))%py.

End Script.

(* ================================================================== *)
(** ** Reading a run *)

(** The two kinds of action command, told apart by how they start. *)
Definition is_approve (command : string) : bool :=
  Str.startswith command "gh pr review ".

Definition is_merge (command : string) : bool :=
  Str.startswith command "gh pr merge ".

Definition approvals (t : trace) : list string := filter is_approve (commands t).

Definition merges (t : trace) : list string := filter is_merge (commands t).

(** A [PullRequestRecord]: an object with a string [title] and a [url]. *)
Definition is_record (pr : pyval) : bool :=
  match Py.getitem pr "title", Py.getitem pr "url" with
  | Return (PStr _), Return _ => true
  | _, _ => false
  end.

(** The record was taken up during [t]: its skip notice or its approve
    command is there. *)
Definition attempted `{Builtins} (pr : pyval) (t : trace) : Prop :=
  exists pr_title repo_url,
    Py.getitem pr "title" = Return pr_title /\
    Py.getitem pr "url" = Return repo_url /\
    (In (Log INFO (skip_message pr_title)) t \/
     In (Run (approve_command repo_url)) t).


(** The client keeps to a result-size cap: after a command that carries
    [flag], the file holds no sequence longer than [cap]. *)
Definition honours_cap (flag : string) (cap : nat) (w : world) : Prop :=
  forall past command items,
    Str.contains flag command = true ->
    prs_json w (past ++ [command])%list = Loaded (PList items) ->
    List.length items <= cap.

(** The file contents [main] gets through: text that does not parse, a
    value that counts as false, or a sequence in which every item is a
    record. *)
Definition well_shaped (file : load_outcome) : bool :=
  match file with
  | Loaded (PList items) => forallb is_record items
  | Loaded v => negb (Py.truthy v)
  | JSONDecodeError _ => true
  | LoadRaises _ => false
  end.


(** The approve command a record calls for: the one of its url when its
    title matches the keyword, none otherwise. *)
Definition approve_of `{Builtins} (pr : pyval) : list string :=
  match Py.getitem pr "title", Py.getitem pr "url" with
  | Return pr_title, Return repo_url =>
      match keyword_match pr_title with
      | Return true => [approve_command repo_url]
      | _ => []
      end
  | _, _ => []
  end.


(** The events of a call of [process_pull_request] up to its merge
    command: the approve command and the notice that it went through. *)
Definition approved_prefix `{Builtins} (repo_url : pyval) : trace :=
  [Run (approve_command repo_url);
   Log INFO ("Successfully approved PR: " ++ Py.format repo_url)].

(** The events one call of [process_pull_request] can add: nothing, the
    skip notice, the approve command with at most a log entry after it, or
    the approve command, its success notice and the merge command with at
    most a log entry after it. *)
Inductive record_events `{Builtins} : trace -> Prop :=
| events_none : record_events []
| events_skip (pr_title : pyval) :
    record_events [Log INFO (skip_message pr_title)]
| events_approve (repo_url : pyval) (tail : trace) :
    commands tail = [] ->
    record_events (Run (approve_command repo_url) :: tail)
| events_merge (repo_url : pyval) (tail : trace) :
    commands tail = [] ->
    record_events
      (Run (approve_command repo_url)
         :: Log INFO ("Successfully approved PR: " ++ Py.format repo_url)
         :: Run (merge_command repo_url) :: tail).

(** Two outcomes of a call that the script cannot tell apart: the same
    exception, or the same return code and, where that code is not zero, the
    same error output. *)
Definition same_outcome (r1 r2 : result completed) : Prop :=
  match r1, r2 with
  | Return c1, Return c2 =>
      returncode c1 = returncode c2 /\
      (returncode c1 <> 0%Z -> stderr c1 = stderr c2)
  | Raise e1, Raise e2 => e1 = e2
  | _, _ => False
  end.

(** Two worlds that the script cannot tell apart: every command comes to
    the same outcome in both, and the file reads the same. *)
Definition same_answers (w1 w2 : world) : Prop :=
  (forall past command,
     same_outcome (shell w1 past command) (shell w2 past command)) /\
  (forall past, prs_json w1 past = prs_json w2 past).

(** No merge command stands on its own in [t]: wherever a command of the
    merge kind occurs, the events right before it are the approve command of
    the same url and the notice that the approval went through. *)
Definition merges_guarded `{Builtins} (t : trace) : Prop :=
  forall t1 c t2,
    t = (t1 ++ Run c :: t2)%list ->
    is_merge c = true ->
    exists repo_url t1',
      c = merge_command repo_url /\
      t1 = (t1' ++ approved_prefix repo_url)%list.


(* ================================================================== *)
(** ** A small world to run the script in *)

Module Sample.

(** [str.lower] on ASCII text; bytes outside A-Z stay as they are. *)
Definition lower_ascii (c : ascii) : ascii :=
  let n := nat_of_ascii c in
  if (65 <=? n)%nat && (n <=? 90)%nat then ascii_of_nat (n + 32) else c.

Fixpoint lower_string (s : string) : string :=
  match s with
  | EmptyString => EmptyString
  | String c s' => String (lower_ascii c) (lower_string s')
  end.

(** The text of the scalars that have a short one; the sample inputs
    hold no other value outside a string. *)
Definition repr_scalar (v : pyval) : string :=
  match v with
  | PNone => "None"
  | PBool true => "True"
  | PBool false => "False"
  | PStr s => s
  | _ => "..."
  end.

Definition builtins : Builtins :=
  {| lower := lower_string; repr := repr_scalar |}.

Definition record (title url : string) : pyval :=
  PDict [("url", PStr url); ("title", PStr title)].

Definition ok : completed :=
  {| returncode := 0; stdout := []; stderr := [] |}.

(** Exit status 1 with the bytes of [text] on the error stream. *)
Definition failed (text : string) : completed :=
  {| returncode := 1; stdout := []; stderr := list_byte_of_string text |}.

(** Exit status 1 with the single byte 0xFF on the error stream. *)
Definition failed_raw : completed :=
  {| returncode := 1; stdout := []; stderr := [xff] |}.

(** A world in which every command completes as [search] except the
    approve and merge commands, which complete as [approve] and
    [merge]; the file holds [file]. *)
Definition world_of (search approve merge : completed) (file : load_outcome)
  : world :=
  {| shell := fun _ command =>
       if is_approve command then Return approve
       else if is_merge command then Return merge
       else Return search;
     prs_json := fun _ => file |}.

Definition run (w : world) : result unit * trace :=
  @main builtins w [].

Definition matching : pyval := record "Add YOURFAVOURITEKEYWORD support" "u2".

Definition other : pyval := record "Fix bug" "u1".

Definition two_records : load_outcome := Loaded (PList [matching; other]).

(** Everything succeeds. *)
Definition granted : world := world_of ok ok ok two_records.

(** The approval is refused. *)
Definition denied : world := world_of ok (failed "denied") ok two_records.

(** The approval goes through and the merge is refused. *)
Definition merge_refused : world :=
  world_of ok ok (failed "conflict") two_records.

(** The approval is refused and the error output is not UTF-8. *)
Definition garbled : world := world_of ok failed_raw ok two_records.

(** The file holds one object that has no title. *)
Definition untitled : world :=
  world_of ok ok ok (Loaded (PList [PDict [("url", PStr "u1")]])).



(** The file holds a sequence of 101 records. *)
Definition overfull : world :=
  world_of ok ok ok (Loaded (PList (repeat other 101))).

(** The search itself fails. *)
Definition search_down : world :=
  world_of (failed "no network") ok ok two_records.

(** The file holds an object instead of a sequence. *)
Definition api_error : world :=
  world_of ok ok ok (Loaded (PDict [("message", PStr "Bad credentials")])).

(** The file holds [null]. *)
Definition null_file : world := world_of ok ok ok (Loaded PNone).

(** As [granted], with text on the output stream of every command and on
    the error stream of the commands that succeed. *)
Definition chatty : world :=
  {| shell := fun past command =>
       Return {| returncode := 0;
                 stdout := list_byte_of_string "done";
                 stderr := [xff] |};
     prs_json := prs_json granted |}.





(** The search fails over a file that holds an object without a title. *)
Definition search_down_untitled : world :=
  world_of (failed "no network") ok ok
    (Loaded (PList [PDict [("url", PStr "u1")]])).

End Sample.

(* ================================================================== *)
(** ** Containment and the event monad *)

Module StrFacts.

Lemma startswith_iff (hay needle : string) :
  Str.startswith hay needle = true <-> exists rest, hay = needle ++ rest.
Proof.
  revert hay; induction needle as [|a needle IH]; intros hay; simpl.
  - split; [intros _; now exists hay | reflexivity].
  - destruct hay as [|b hay].
    + split; [discriminate | intros [rest H]; discriminate].
    + rewrite andb_true_iff, Ascii.eqb_eq, IH. split.
      * intros [-> [rest ->]]. now exists rest.
      * intros [rest H]. injection H as -> ->. split; [reflexivity | now exists rest].
Qed.

Lemma contains_iff (needle hay : string) :
  Str.contains needle hay = true <-> Str.substring_of needle hay.
Proof.
  unfold Str.substring_of.
  induction hay as [|c hay IH].
  - cbn [Str.contains]. rewrite orb_false_r, startswith_iff. split.
    + intros [rest H]. exists EmptyString, rest. exact H.
    + intros [[|b before] [after H]].
      * now exists after.
      * discriminate.
  - cbn [Str.contains]. rewrite orb_true_iff, startswith_iff, IH. split.
    + intros [[rest H] | [before [after H]]].
      * exists EmptyString, rest. exact H.
      * exists (String c before), after. simpl. now rewrite H.
    + intros [[|b before] [after H]].
      * left. now exists after.
      * right. simpl in H. injection H as -> ->. now exists before, after.
Qed.

Lemma append_assoc (a b c : string) : (a ++ b) ++ c = a ++ b ++ c.
Proof. induction a as [|x a IH]; simpl; [reflexivity | now rewrite IH]. Qed.

End StrFacts.

Section Facts.

Context {B : Builtins} (w : world).

Lemma commands_app (t1 t2 : trace) :
  commands (t1 ++ t2)%list = (commands t1 ++ commands t2)%list.
Proof.
  induction t1 as [|[c|l m] t1 IH]; simpl; [reflexivity | now rewrite IH | exact IH].
Qed.

(** How [bind] runs on each primitive. *)
Lemma bind_lift_return {A C} (a : A) (k : A -> M C) past :
  bind (lift (Return a)) k past = k a past.
Proof.
  unfold bind, lift. rewrite app_nil_r. now destruct (k a past).
Qed.

Lemma bind_lift_raise {A C} (e : exception) (k : A -> M C) past :
  bind (lift (Raise e)) k past = (Raise e, []).
Proof. reflexivity. Qed.

Lemma bind_ret {A C} (a : A) (k : A -> M C) past :
  bind (ret a) k past = k a past.
Proof. exact (bind_lift_return a k past). Qed.

Lemma bind_run_command {C} command (k : completed -> M C) past :
  bind (run_command w command) k past =
    match answer w past command with
    | Return c =>
        let (r, t) := k c (past ++ [Run command])%list in
        (r, Run command :: t)
    | Raise e => (Raise e, [Run command])
    end.
Proof. unfold bind, run_command. now destruct (answer w past command). Qed.

Lemma bind_logging {C} lvl message (k : unit -> M C) past :
  bind (logging lvl message) k past =
    let (r, t) := k tt (past ++ [Log lvl message])%list in
    (r, Log lvl message :: t).
Proof. reflexivity. Qed.

Lemma bind_decode {C} b (k : string -> M C) past :
  bind (decode b) k past =
    match Bytes.decode b with
    | Some text => k text past
    | None => (Raise UnicodeDecodeError, [])
    end.
Proof.
  unfold decode. destruct (Bytes.decode b); [apply bind_ret | reflexivity].
Qed.

Lemma bind_json_load_prs {C} (k : load_outcome -> M C) past :
  bind (json_load_prs w) k past = k (prs_json w (commands past)) past.
Proof.
  unfold bind, json_load_prs. rewrite app_nil_r.
  now destruct (k (prs_json w (commands past)) past).
Qed.

Lemma commands_snoc_run past command :
  commands (past ++ [Run command])%list = (commands past ++ [command])%list.
Proof. now rewrite commands_app. Qed.


(** A call is answered by the commands called before it; the log entries
    in between play no part. *)
Lemma answer_commands past past' command :
  commands past = commands past' ->
  answer w past command = answer w past' command.
Proof. unfold answer. now intros ->. Qed.

(** The steps of [process_pull_request] on a record, one lemma per way
    through it. *)
Lemma process_skip pr title repo_url past :
  Py.getitem pr "title" = Return title ->
  Py.getitem pr "url" = Return repo_url ->
  keyword_match title = Return false ->
  process_pull_request w pr past = (Return tt, [Log INFO (skip_message title)]).
Proof.
  intros Ht Hu Hm. unfold process_pull_request.
  rewrite Ht, bind_lift_return, Hu, bind_lift_return, Hm, bind_lift_return.
  reflexivity.
Qed.

Lemma process_approve_raised pr title repo_url past e :
  Py.getitem pr "title" = Return title ->
  Py.getitem pr "url" = Return repo_url ->
  keyword_match title = Return true ->
  answer w past (approve_command repo_url) = Raise e ->
  process_pull_request w pr past = (Raise e, [Run (approve_command repo_url)]).
Proof.
  intros Ht Hu Hm Hans. unfold process_pull_request.
  rewrite Ht, bind_lift_return, Hu, bind_lift_return, Hm, bind_lift_return.
  cbn [negb]. now rewrite bind_run_command, Hans.
Qed.

Lemma process_approve_failed pr title repo_url past c :
  Py.getitem pr "title" = Return title ->
  Py.getitem pr "url" = Return repo_url ->
  keyword_match title = Return true ->
  answer w past (approve_command repo_url) = Return c ->
  returncode c <> 0%Z ->
  process_pull_request w pr past =
    match Bytes.decode (stderr c) with
    | Some text =>
        (Return tt,
         [Run (approve_command repo_url);
          Log ERROR ("Failed to approve PR " ++ Py.format repo_url ++ ": " ++ text)])
    | None => (Raise UnicodeDecodeError, [Run (approve_command repo_url)])
    end.
Proof.
  intros Ht Hu Hm Hans Hrc. apply Z.eqb_neq in Hrc. unfold process_pull_request.
  rewrite Ht, bind_lift_return, Hu, bind_lift_return, Hm, bind_lift_return.
  cbn [negb]. rewrite bind_run_command, Hans, Hrc. cbn [negb].
  rewrite bind_decode. now destruct Bytes.decode.
Qed.

Lemma process_approved pr title repo_url past c :
  Py.getitem pr "title" = Return title ->
  Py.getitem pr "url" = Return repo_url ->
  keyword_match title = Return true ->
  answer w past (approve_command repo_url) = Return c ->
  returncode c = 0%Z ->
  process_pull_request w pr past =
    match answer w (past ++ approved_prefix repo_url)%list
            (merge_command repo_url) with
    | Raise e =>
        (Raise e, approved_prefix repo_url ++ [Run (merge_command repo_url)])%list
    | Return c' =>
        if (returncode c' =? 0)%Z then
          (Return tt,
           approved_prefix repo_url ++
           [Run (merge_command repo_url);
            Log INFO ("Successfully merged PR: " ++ Py.format repo_url)])%list
        else
          match Bytes.decode (stderr c') with
          | Some text =>
              (Return tt,
               approved_prefix repo_url ++
               [Run (merge_command repo_url);
                Log ERROR
                  ("Failed to merge PR " ++ Py.format repo_url ++ ": " ++ text)])%list
          | None =>
              (Raise UnicodeDecodeError,
               approved_prefix repo_url ++ [Run (merge_command repo_url)])%list
          end
    end.
Proof.
  intros Ht Hu Hm Hans Hrc. apply Z.eqb_eq in Hrc. unfold process_pull_request.
  rewrite Ht, bind_lift_return, Hu, bind_lift_return, Hm, bind_lift_return.
  cbn [negb]. rewrite bind_run_command, Hans, Hrc. cbn [negb].
  rewrite bind_logging, bind_run_command.
  replace ((past ++ [Run (approve_command repo_url)]) ++
           [Log INFO ("Successfully approved PR: " ++ Py.format repo_url)])%list
    with (past ++ approved_prefix repo_url)%list
    by (unfold approved_prefix; now rewrite <- app_assoc).
  destruct (answer w _ (merge_command repo_url)) as [c'|e]; [|reflexivity].
  destruct (returncode c' =? 0)%Z; [reflexivity|].
  unfold bind at 1. unfold decode. now destruct Bytes.decode.
Qed.

(** [for_each] over two stretches of items: the second starts where the
    first stopped, unless the first raised. *)
Lemma for_each_app {A} (xs ys : list A) (body : A -> M unit) past :
  for_each (xs ++ ys) body past =
    match for_each xs body past with
    | (Return _, t1) =>
        let (r, t2) := for_each ys body (past ++ t1)%list in (r, (t1 ++ t2)%list)
    | (Raise e, t1) => (Raise e, t1)
    end.
Proof.
  revert past; induction xs as [|x xs IH]; intros past.
  - cbn. rewrite app_nil_r. now destruct (for_each ys body past).
  - cbn [for_each app]. unfold bind.
    destruct (body x past) as [[[]|e] t]; [|reflexivity].
    rewrite IH.
    destruct (for_each xs body (past ++ t)%list) as [[[]|e] t1]; [|reflexivity].
    rewrite <- app_assoc.
    destruct (for_each ys body (past ++ t ++ t1)%list) as [r t2].
    now rewrite <- app_assoc.
Qed.

Lemma is_record_inv pr :
  is_record pr = true ->
  exists T repo_url,
    Py.getitem pr "title" = Return (PStr T) /\
    Py.getitem pr "url" = Return repo_url.
Proof.
  unfold is_record.
  destruct (Py.getitem pr "title") as [[]|]; try discriminate.
  destruct (Py.getitem pr "url") as [u|]; try discriminate.
  intros _. now eexists _, u.
Qed.

Lemma keyword_match_record T :
  keyword_match (PStr T) = Return (Str.contains (lower KEYWORD) (lower T)).
Proof. reflexivity. Qed.




Lemma is_merge_approve repo_url : is_merge (approve_command repo_url) = false.
Proof. reflexivity. Qed.

Lemma is_merge_merge repo_url : is_merge (merge_command repo_url) = true.
Proof. reflexivity. Qed.

Lemma is_approve_approve repo_url :
  is_approve (approve_command repo_url) = true.
Proof. reflexivity. Qed.

Lemma is_approve_merge repo_url : is_approve (merge_command repo_url) = false.
Proof. reflexivity. Qed.

Lemma is_merge_search : is_merge search_command = false.
Proof. reflexivity. Qed.

Lemma is_approve_search : is_approve search_command = false.
Proof. reflexivity. Qed.

Lemma search_command_has_no_nul : Str.has_nul search_command = false.
Proof. reflexivity. Qed.

(** [fetch_pull_requests], path by path. *)
Lemma fetch_unfold past :
  fetch_pull_requests w past =
    match answer w past search_command with
    | Raise e => (Raise e, [Run search_command])
    | Return c =>
        if negb (returncode c =? 0)%Z then
          match Bytes.decode (stderr c) with
          | Some text =>
              (Return (PList []),
               [Run search_command; Log ERROR ("Failed to search PRs: " ++ text)])
          | None => (Raise UnicodeDecodeError, [Run search_command])
          end
        else
          match prs_json w (commands past ++ [search_command])%list with
          | Loaded v => (Return v, [Run search_command])
          | JSONDecodeError e =>
              (Return (PList []),
               [Run search_command; Log ERROR ("Failed to parse JSON: " ++ e)])
          | LoadRaises x => (Raise x, [Run search_command])
          end
    end.
Proof.
  unfold fetch_pull_requests. rewrite bind_run_command.
  destruct (answer w past search_command) as [c|e]; [|reflexivity].
  destruct (negb _).
  - rewrite bind_decode. now destruct Bytes.decode.
  - rewrite bind_json_load_prs, commands_snoc_run. now destruct prs_json.
Qed.

Lemma fetch_commands past :
  commands (snd (fetch_pull_requests w past)) = [search_command].
Proof.
  rewrite fetch_unfold.
  destruct (answer w past search_command) as [c|e]; [|reflexivity].
  destruct (negb _); [now destruct Bytes.decode | now destruct prs_json].
Qed.

(** [main] after the fetch. *)
Lemma main_unfold past :
  main w past =
    match fetch_pull_requests w past with
    | (Return pull_requests, t0) =>
        if negb (Py.truthy pull_requests) then
          (Return tt, t0 ++ [Log WARNING "No pull requests found"])%list
        else
          match Py.iter pull_requests with
          | Return items =>
              let (r, t) :=
                for_each items (process_pull_request w) (past ++ t0)%list in
              (r, (t0 ++ t)%list)
          | Raise e => (Raise e, t0)
          end
    | (Raise e, t0) => (Raise e, t0)
    end.
Proof.
  unfold main, bind at 1.
  destruct (fetch_pull_requests w past) as [[v|e] t0]; [|reflexivity].
  destruct (negb _); [reflexivity|].
  destruct (Py.iter v) as [items|e].
  - rewrite bind_lift_return. reflexivity.
  - cbn. now rewrite app_nil_r.
Qed.

(** [main] on a fetched sequence that is not empty is the loop over it. *)
Lemma main_on_fetched pr prs past t0 :
  fetch_pull_requests w past = (Return (PList (pr :: prs)), t0) ->
  main w past =
    (fst (for_each (pr :: prs) (process_pull_request w) (past ++ t0)%list),
     (t0 ++ snd (for_each (pr :: prs) (process_pull_request w)
                   (past ++ t0)%list))%list).
Proof.
  intros Hfetch. rewrite main_unfold, Hfetch. cbn [Py.truthy negb Py.iter].
  now destruct (for_each (pr :: prs) (process_pull_request w) (past ++ t0)%list).
Qed.

End Facts.
(* ================================================================== *)
(** ** The keyword test *)

(** C1. For every title [T], the keyword test of [process_pull_request]
    answers true exactly when the lowered keyword is a substring of the
    lowered title, and false exactly when it is not; any text before and
    after the keyword leaves the answer true. *)
Theorem keyword_match_is_containment {B : Builtins} (T : string) :
  (keyword_match (PStr T) = Return true <->
   Str.substring_of (lower KEYWORD) (lower T)) /\
  (keyword_match (PStr T) = Return false <->
   ~ Str.substring_of (lower KEYWORD) (lower T)) /\
  (forall before after,
     lower T = before ++ lower KEYWORD ++ after ->
     keyword_match (PStr T) = Return true).
Proof.
  assert (Heq : keyword_match (PStr T)
                = Return (Str.contains (lower KEYWORD) (lower T))) by reflexivity.
  rewrite Heq. pose proof (StrFacts.contains_iff (lower KEYWORD) (lower T)) as Hc.
  repeat split.
  - intros [= H]. now apply Hc.
  - intros H. f_equal. now apply Hc.
  - intros [= H] Hs. apply Hc in Hs. congruence.
  - intros H. f_equal. destruct (Str.contains _ _); [|reflexivity].
    exfalso. apply H, Hc. reflexivity.
  - intros before after H. f_equal. apply Hc. now exists before, after.
Qed.

Lemma keyword_match_is_containment_witness :
  @keyword_match Sample.builtins (PStr "Add YourFavouriteKeyword support")
    = Return true.
Proof.
  apply (proj2 (proj2 (@keyword_match_is_containment Sample.builtins
                         "Add YourFavouriteKeyword support"))
           "add " " support").
  reflexivity.
Defined.

(** The keyword in capitals, in small letters and in mixed case, at the
    start, in the middle and at the end of a title; and two titles without
    it. *)
Example keyword_match_samples :
  @keyword_match Sample.builtins (PStr "YOURFAVOURITEKEYWORD: bump") = Return true /\
  @keyword_match Sample.builtins (PStr "Add yourfavouritekeyword support") = Return true /\
  @keyword_match Sample.builtins (PStr "bump YourFavouriteKeyword") = Return true /\
  @keyword_match Sample.builtins (PStr "Fix bug") = Return false /\
  @keyword_match Sample.builtins (PStr "YOURFAVOURITE KEYWORD") = Return false.
Proof. repeat split. Qed.

(* ================================================================== *)
(** ** One record *)

(** C5. A record whose title does not match the keyword gets neither an
    approve nor a merge command: processing it logs the skip notice, which
    names the title, and returns, and the loop goes on with the next
    record. *)
Theorem unmatched_record_is_skipped {B : Builtins} (w : world)
    (pr : pyval) (T : string) (repo_url : pyval) (past : trace) :
  Py.getitem pr "title" = Return (PStr T) ->
  Py.getitem pr "url" = Return repo_url ->
  keyword_match (PStr T) = Return false ->
  process_pull_request w pr past
    = (Return tt,
       [Log INFO ("Skipping PR " ++ dquote ++ T ++ dquote ++ " - no keyword match")]) /\
  approvals (snd (process_pull_request w pr past)) = [] /\
  merges (snd (process_pull_request w pr past)) = [] /\
  forall rest,
    for_each (pr :: rest) (process_pull_request w) past =
      (fst (for_each rest (process_pull_request w)
              (past ++ [Log INFO (skip_message (PStr T))])%list),
       Log INFO (skip_message (PStr T))
         :: snd (for_each rest (process_pull_request w)
                   (past ++ [Log INFO (skip_message (PStr T))])%list)).
Proof.
  intros Ht Hu Hm. pose proof (process_skip w pr _ repo_url past Ht Hu Hm) as Hrun.
  rewrite Hrun. repeat split.
  intros rest. cbn [for_each]. unfold bind. rewrite Hrun.
  now destruct for_each.
Qed.

Lemma unmatched_record_is_skipped_witness :
  @process_pull_request Sample.builtins Sample.granted Sample.other []
    = (Return tt,
       [Log INFO ("Skipping PR " ++ dquote ++ "Fix bug" ++ dquote ++ " - no keyword match")]).
Proof.
  refine (proj1 (@unmatched_record_is_skipped Sample.builtins Sample.granted
                   Sample.other "Fix bug" (PStr "u1") [] _ _ _));
    reflexivity.
Defined.

(** C2. A record whose title matches and whose approve command returns a
    non-zero code gets no merge command: the approve command is the only
    command run for it. *)
Theorem failed_approval_stops_the_record {B : Builtins} (w : world)
    (pr title repo_url : pyval) (past : trace) (c : completed) :
  Py.getitem pr "title" = Return title ->
  Py.getitem pr "url" = Return repo_url ->
  keyword_match title = Return true ->
  answer w past (approve_command repo_url) = Return c ->
  returncode c <> 0%Z ->
  commands (snd (process_pull_request w pr past)) = [approve_command repo_url] /\
  merges (snd (process_pull_request w pr past)) = [] /\
  ~ In (Run (merge_command repo_url)) (snd (process_pull_request w pr past)).
Proof.
  intros Ht Hu Hm Hans Hrc.
  rewrite (process_approve_failed w pr title repo_url past c Ht Hu Hm Hans Hrc).
  unfold merges.
  destruct (Bytes.decode _); cbn [snd commands filter];
    rewrite is_merge_approve; repeat split; try reflexivity.
  - intros [H|[H|[]]]; [|discriminate]. injection H as H.
    pose proof (is_merge_approve repo_url) as Hk. rewrite H in Hk. discriminate.
  - intros [H|[]]. injection H as H.
    pose proof (is_merge_approve repo_url) as Hk. rewrite H in Hk. discriminate.
Qed.

Lemma failed_approval_stops_the_record_witness :
  commands (snd (@process_pull_request Sample.builtins Sample.denied Sample.matching []))
    = ["gh pr review u2 --approve -b " ++ dquote ++ "lit" ++ dquote] /\
  merges (snd (@process_pull_request Sample.builtins Sample.denied Sample.matching []))
    = [].
Proof.
  pose proof (@failed_approval_stops_the_record Sample.builtins Sample.denied
                Sample.matching (PStr "Add YOURFAVOURITEKEYWORD support")
                (PStr "u2") [] (Sample.failed "denied")
                eq_refl eq_refl eq_refl eq_refl) as H.
  split; apply H; vm_compute; discriminate.
Defined.

(** C4. A record whose title matches and whose approve command returns zero
    gets exactly one merge command, whatever comes of that merge command. *)
Theorem approved_record_is_merged_once {B : Builtins} (w : world)
    (pr title repo_url : pyval) (past : trace) (c : completed) :
  Py.getitem pr "title" = Return title ->
  Py.getitem pr "url" = Return repo_url ->
  keyword_match title = Return true ->
  answer w past (approve_command repo_url) = Return c ->
  returncode c = 0%Z ->
  merges (snd (process_pull_request w pr past)) = [merge_command repo_url] /\
  commands (snd (process_pull_request w pr past))
    = [approve_command repo_url; merge_command repo_url] /\
  count_occ string_dec (commands (snd (process_pull_request w pr past)))
    (merge_command repo_url) = 1.
Proof.
  intros Ht Hu Hm Hans Hrc.
  rewrite (process_approved w pr title repo_url past c Ht Hu Hm Hans Hrc).
  assert (Hne : approve_command repo_url <> merge_command repo_url).
  { intros H. pose proof (is_merge_approve repo_url) as Hk.
    rewrite H in Hk. discriminate. }
  unfold merges, approved_prefix.
  destruct (answer w _ (merge_command repo_url)) as [c'|e];
    [destruct (returncode c' =? 0)%Z; [|destruct (Bytes.decode _)]|];
    cbn [snd commands filter count_occ app];
    rewrite is_merge_approve, is_merge_merge;
    (destruct (string_dec (approve_command repo_url) (merge_command repo_url));
     [contradiction|]);
    (destruct (string_dec (merge_command repo_url) (merge_command repo_url));
     [|contradiction]);
    repeat split.
Qed.

Lemma approved_record_is_merged_once_witness :
  merges (snd (@process_pull_request Sample.builtins Sample.merge_refused Sample.matching []))
    = ["gh pr merge u2 --squash --auto --merge --delete-branch -A email"].
Proof.
  refine (proj1 (@approved_record_is_merged_once Sample.builtins
                   Sample.merge_refused Sample.matching
                   (PStr "Add YOURFAVOURITEKEYWORD support") (PStr "u2") []
                   Sample.ok _ _ _ _ _));
    reflexivity.
Defined.

(** C9. Every record that reaches the merge step gets one merge command,
    and that one command carries the squash strategy, the auto-merge flag,
    the request to delete the source branch and the [-A] attribution field
    together, after the locator of the record. *)
Theorem merge_command_shape {B : Builtins} (w : world)
    (pr title repo_url : pyval) (past : trace) (c : completed) :
  Py.getitem pr "title" = Return title ->
  Py.getitem pr "url" = Return repo_url ->
  keyword_match title = Return true ->
  answer w past (approve_command repo_url) = Return c ->
  returncode c = 0%Z ->
  filter is_merge (commands (snd (process_pull_request w pr past)))
    = ["gh pr merge " ++ Py.format repo_url
         ++ " --squash --auto --merge --delete-branch -A email"] /\
  Str.contains " --squash " (merge_command repo_url) = true /\
  Str.contains " --auto " (merge_command repo_url) = true /\
  Str.contains " --delete-branch " (merge_command repo_url) = true /\
  Str.contains " -A email" (merge_command repo_url) = true.
Proof.
  intros Ht Hu Hm Hans Hrc. split.
  - rewrite (process_approved w pr title repo_url past c Ht Hu Hm Hans Hrc).
    unfold approved_prefix.
    destruct (answer w _ (merge_command repo_url)) as [c'|e];
      [destruct (returncode c' =? 0)%Z; [|destruct (Bytes.decode _)]|];
      cbn [snd commands filter app];
      now rewrite is_merge_approve, is_merge_merge.
  - unfold merge_command.
    repeat split; apply StrFacts.contains_iff.
    + exists ("gh pr merge " ++ Py.format repo_url),
        "--auto --merge --delete-branch -A email".
      now rewrite !StrFacts.append_assoc.
    + exists ("gh pr merge " ++ Py.format repo_url ++ " --squash"),
        "--merge --delete-branch -A email".
      now rewrite !StrFacts.append_assoc.
    + exists ("gh pr merge " ++ Py.format repo_url ++ " --squash --auto --merge"),
        "-A email".
      now rewrite !StrFacts.append_assoc.
    + exists ("gh pr merge " ++ Py.format repo_url
              ++ " --squash --auto --merge --delete-branch"),
        EmptyString.
      now rewrite !StrFacts.append_assoc.
Qed.

Lemma merge_command_shape_witness :
  filter is_merge
    (commands (snd (@process_pull_request Sample.builtins Sample.granted
                      Sample.matching [])))
    = ["gh pr merge u2 --squash --auto --merge --delete-branch -A email"].
Proof.
  refine (proj1 (@merge_command_shape Sample.builtins Sample.granted
                   Sample.matching (PStr "Add YOURFAVOURITEKEYWORD support")
                   (PStr "u2") [] Sample.ok _ _ _ _ _));
    reflexivity.
Defined.

(** C10. Two records with the same url whose titles both match the keyword
    run the same commands: processing them from the same point gives the
    same events, and every command run is the approve or the merge command
    of the url, in which the title has no part. *)
Theorem commands_ignore_the_title {B : Builtins} (w : world)
    (pr1 pr2 title1 title2 repo_url : pyval) (past : trace) :
  Py.getitem pr1 "title" = Return title1 ->
  Py.getitem pr2 "title" = Return title2 ->
  Py.getitem pr1 "url" = Return repo_url ->
  Py.getitem pr2 "url" = Return repo_url ->
  keyword_match title1 = Return true ->
  keyword_match title2 = Return true ->
  process_pull_request w pr1 past = process_pull_request w pr2 past /\
  commands (snd (process_pull_request w pr1 past))
    = commands (snd (process_pull_request w pr2 past)) /\
  (commands (snd (process_pull_request w pr1 past)) = [approve_command repo_url] \/
   commands (snd (process_pull_request w pr1 past))
     = [approve_command repo_url; merge_command repo_url]).
Proof.
  intros Ht1 Ht2 Hu1 Hu2 Hm1 Hm2.
  destruct (answer w past (approve_command repo_url)) as [c|e] eqn:Hans.
  - destruct (Z.eq_dec (returncode c) 0) as [Hrc|Hrc].
    + rewrite (process_approved w pr1 title1 repo_url past c Ht1 Hu1 Hm1 Hans Hrc).
      rewrite (process_approved w pr2 title2 repo_url past c Ht2 Hu2 Hm2 Hans Hrc).
      repeat split. right. unfold approved_prefix.
      destruct (answer w _ (merge_command repo_url)) as [c'|e];
        [destruct (returncode c' =? 0)%Z; [|destruct (Bytes.decode _)]|];
        reflexivity.
    + rewrite (process_approve_failed w pr1 title1 repo_url past c Ht1 Hu1 Hm1 Hans Hrc).
      rewrite (process_approve_failed w pr2 title2 repo_url past c Ht2 Hu2 Hm2 Hans Hrc).
      repeat split. left. destruct (Bytes.decode _); reflexivity.
  - rewrite (process_approve_raised w pr1 title1 repo_url past e Ht1 Hu1 Hm1 Hans).
    rewrite (process_approve_raised w pr2 title2 repo_url past e Ht2 Hu2 Hm2 Hans).
    repeat split. now left.
Qed.

Lemma commands_ignore_the_title_witness :
  @process_pull_request Sample.builtins Sample.granted Sample.matching []
    = @process_pull_request Sample.builtins Sample.granted
        (Sample.record "yourfavouritekeyword, again" "u2") [].
Proof.
  refine (proj1 (@commands_ignore_the_title Sample.builtins Sample.granted
                   Sample.matching
                   (Sample.record "yourfavouritekeyword, again" "u2")
                   (PStr "Add YOURFAVOURITEKEYWORD support")
                   (PStr "yourfavouritekeyword, again")
                   (PStr "u2") [] _ _ _ _ _ _));
    reflexivity.
Defined.

(* ================================================================== *)
(** ** The fetch step *)




(** C8. Every run of the fetch step issues one command, the search, which
    carries the result-size cap [-L 100]; with a client that keeps to that
    cap the sequence the fetch returns has at most 100 records; and the
    fetch does not reorder: what it returns is the empty sequence of a
    failed fetch or the very value read from the file. *)
Theorem fetch_is_capped (w : world) (past : trace) :
  honours_cap "-L 100" 100 w ->
  commands (snd (fetch_pull_requests w past)) = [search_command] /\
  Str.contains " -L 100 " search_command = true /\
  (forall items,
     fst (fetch_pull_requests w past) = Return (PList items) ->
     List.length items <= 100) /\
  (forall v,
     fst (fetch_pull_requests w past) = Return v ->
     v = PList [] \/
     prs_json w (commands past ++ [search_command])%list = Loaded v).
Proof.
  intros Hcap.
  assert (Hsrc : forall v,
     fst (fetch_pull_requests w past) = Return v ->
     v = PList [] \/
     prs_json w (commands past ++ [search_command])%list = Loaded v).
  { intros v. rewrite fetch_unfold.
    destruct (answer w past search_command) as [c|e]; [|discriminate].
    destruct (negb _).
    - destruct (Bytes.decode _); cbn [fst]; [|discriminate].
      intros [= <-]. now left.
    - destruct (prs_json w _) as [v'|text|e]; cbn [fst]; try discriminate.
      + intros [= <-]. now right.
      + intros [= <-]. now left. }
  repeat split.
  - apply fetch_commands.
  - intros items Hitems. destruct (Hsrc _ Hitems) as [[= ->]|Hfile].
    + cbn. lia.
    + exact (Hcap (commands past) search_command items eq_refl Hfile).
  - exact Hsrc.
Qed.

Lemma fetch_is_capped_witness :
  commands (snd (fetch_pull_requests Sample.granted []))
    = ["gh search prs --state=open --review-requested=@me --json url,title -L 100 > prs.json"].
Proof.
  refine (proj1 (fetch_is_capped Sample.granted [] _)).
  intros past command items _ [= <-]. cbn. lia.
Defined.

(* ================================================================== *)
(** ** The batch *)

(** C6. The defect, run: the approval of the first of two records is
    refused with error output that is not UTF-8 (the byte 0xFF); the
    failure branch decodes that output for its log line, the decoding
    raises, the exception leaves the loop, and the second record is never
    taken up.  With the same refusal and error output that decodes, the
    failure is logged and the second record is processed. *)
Lemma undecodable_failure_cuts_the_batch :
  @answer Sample.garbled [Run search_command]
    (@approve_command Sample.builtins (PStr "u2")) = Return Sample.failed_raw /\
  Sample.run Sample.garbled
    = (Raise UnicodeDecodeError,
       [Run search_command; Run (@approve_command Sample.builtins (PStr "u2"))]) /\
  ~ @attempted Sample.builtins Sample.other (snd (Sample.run Sample.garbled)) /\
  Sample.run Sample.denied
    = (Return tt,
       [Run search_command;
        Run (@approve_command Sample.builtins (PStr "u2"));
        Log ERROR "Failed to approve PR u2: denied";
        Log INFO (@skip_message Sample.builtins (PStr "Fix bug"))]) /\
  @attempted Sample.builtins Sample.other (snd (Sample.run Sample.denied)).
Proof.
  split; [reflexivity|]. split; [reflexivity|]. split; [|split; [reflexivity|]].
  - intros (title & u & Ht & Hu & H).
    injection Ht as <-. injection Hu as <-.
    destruct H as [[H|[H|[]]]|[H|[H|[]]]]; discriminate H.
  - exists (PStr "Fix bug"), (PStr "u1"). split; [reflexivity|].
    split; [reflexivity|]. left. do 3 right. left. reflexivity.
Qed.



(** The fetch itself drops nothing: a file of 101 records comes back as
    101 records.  The bound of 100 is the client's. *)
Example fetch_passes_the_file_on :
  fst (fetch_pull_requests Sample.overfull [])
    = Return (PList (repeat Sample.other 101)).
Proof. reflexivity. Qed.

(** A failed search ends the run normally whatever the file holds: here an
    object without a title, which is never read. *)
Example failed_search_over_bad_file :
  Sample.run Sample.search_down_untitled
    = (Return tt,
       [Run search_command;
        Log ERROR "Failed to search PRs: no network";
        Log WARNING "No pull requests found"]).
Proof. reflexivity. Qed.

(** The scenarios of the script's description, run in the sample world. *)
Example scenario_skip :
  Sample.run (Sample.world_of Sample.ok Sample.ok Sample.ok
                (Loaded (PList [Sample.other])))
    = (Return tt,
       [Run search_command;
        Log INFO ("Skipping PR " ++ dquote ++ "Fix bug" ++ dquote
                    ++ " - no keyword match")]).
Proof. reflexivity. Qed.

Example scenario_approved_and_merged :
  Sample.run (Sample.world_of Sample.ok Sample.ok Sample.ok
                (Loaded (PList [Sample.matching])))
    = (Return tt,
       [Run search_command;
        Run ("gh pr review u2 --approve -b " ++ dquote ++ "lit" ++ dquote);
        Log INFO "Successfully approved PR: u2";
        Run "gh pr merge u2 --squash --auto --merge --delete-branch -A email";
        Log INFO "Successfully merged PR: u2"]).
Proof. reflexivity. Qed.

Example scenario_approval_refused :
  Sample.run Sample.denied
    = (Return tt,
       [Run search_command;
        Run ("gh pr review u2 --approve -b " ++ dquote ++ "lit" ++ dquote);
        Log ERROR "Failed to approve PR u2: denied";
        Log INFO ("Skipping PR " ++ dquote ++ "Fix bug" ++ dquote
                    ++ " - no keyword match")]).
Proof. reflexivity. Qed.

Example scenario_merge_refused :
  Sample.run Sample.merge_refused
    = (Return tt,
       [Run search_command;
        Run ("gh pr review u2 --approve -b " ++ dquote ++ "lit" ++ dquote);
        Log INFO "Successfully approved PR: u2";
        Run "gh pr merge u2 --squash --auto --merge --delete-branch -A email";
        Log ERROR "Failed to merge PR u2: conflict";
        Log INFO ("Skipping PR " ++ dquote ++ "Fix bug" ++ dquote
                    ++ " - no keyword match")]).
Proof. reflexivity. Qed.

Example scenario_search_failed :
  Sample.run (Sample.world_of (Sample.failed "no network") Sample.ok Sample.ok
                Sample.two_records)
    = (Return tt,
       [Run search_command;
        Log ERROR "Failed to search PRs: no network";
        Log WARNING "No pull requests found"]).
Proof. reflexivity. Qed.


(* ================================================================== *)
(** ** Beyond the listed claims: the shape of every run *)

(** Iterating a string that is not empty gives at least one item. *)
Lemma chars_from_cons (cur s : string) :
  exists x xs, Str.chars_from cur s = x :: xs.
Proof.
  revert cur; induction s as [|c s IH]; intros cur.
  - now exists cur, [].
  - cbn [Str.chars_from]. destruct (Str.is_continuation c);
      [apply IH | eexists _, _; reflexivity].
Qed.

(** Where an element of a concatenation lies. *)
Lemma app_split_at {A} (a b t1 t2 : list A) (x : A) :
  (a ++ b = t1 ++ x :: t2)%list ->
  (exists t2', a = t1 ++ x :: t2' /\ t2 = t2' ++ b)%list \/
  (exists t1', t1 = a ++ t1' /\ b = t1' ++ x :: t2)%list.
Proof.
  revert t1; induction a as [|y a IH]; intros t1 H.
  - right. now exists t1.
  - destruct t1 as [|z t1]; cbn [app] in H; injection H as -> H.
    + left. now exists a.
    + destruct (IH t1 H) as [(t2' & -> & ->) | (t1' & -> & ->)].
      * left. now exists t2'.
      * right. now exists t1'.
Qed.

Section Runs.

Context {B : Builtins} (w : world).

(** An item that is not a record is turned down before anything is run
    or logged. *)
Lemma process_non_record pr past :
  is_record pr = false ->
  exists e, process_pull_request w pr past = (Raise e, []) /\
            (e = KeyError "title" \/ e = KeyError "url" \/
             e = TypeError \/ e = AttributeError).
Proof.
  unfold is_record, process_pull_request. intros H.
  destruct (Py.getitem pr "title") as [title|e] eqn:Ht.
  - rewrite bind_lift_return.
    destruct (Py.getitem pr "url") as [u|e] eqn:Hu.
    + rewrite bind_lift_return.
      destruct title; try discriminate H;
        (eexists; split; [reflexivity | now auto]).
    + exists e. split; [reflexivity|].
      unfold Py.getitem in Hu. destruct pr; try (injection Hu as <-; now auto).
      destruct (Py.lookup "url" entries); [discriminate|].
      injection Hu as <-. now auto.
  - exists e. split; [reflexivity|].
    unfold Py.getitem in Ht. destruct pr; try (injection Ht as <-; now auto).
    destruct (Py.lookup "title" entries); [discriminate|].
    injection Ht as <-. now auto.
Qed.

(** The exception of an item that is not a record is the item's own. *)
Lemma process_non_record_anywhere pr past past' :
  is_record pr = false ->
  process_pull_request w pr past = process_pull_request w pr past'.
Proof.
  intros H.
  destruct (process_non_record pr past H) as (e & He & _).
  destruct (process_non_record pr past' H) as (e' & He' & _).
  rewrite He, He'. f_equal.
  unfold is_record, process_pull_request in *.
  destruct (Py.getitem pr "title") as [title|x].
  - rewrite !bind_lift_return in He, He'.
    destruct (Py.getitem pr "url") as [u|x].
    + rewrite !bind_lift_return in He, He'.
      destruct title; try discriminate H; cbn in He, He'; congruence.
    + cbn in He, He'. congruence.
  - cbn in He, He'. congruence.
Qed.

(** Whatever the item and whatever the world answers, one call of
    [process_pull_request] adds events of one of the four shapes, and its
    approve commands are those the item calls for. *)
Lemma process_events pr past :
  record_events (snd (process_pull_request w pr past)) /\
  approvals (snd (process_pull_request w pr past)) = approve_of pr.
Proof.
  destruct (is_record pr) eqn:Hrec.
  - apply is_record_inv in Hrec as (T & u & Ht & Hu).
    pose proof (keyword_match_record T) as Hm.
    unfold approve_of, approvals. rewrite Ht, Hu, Hm.
    destruct (Str.contains (lower KEYWORD) (lower T)).
    + destruct (answer w past (approve_command u)) as [c|e] eqn:Hans.
      * destruct (Z.eq_dec (returncode c) 0) as [Hrc|Hrc].
        -- rewrite (process_approved w pr _ u past c Ht Hu Hm Hans Hrc).
           unfold approved_prefix.
           destruct (answer w _ (merge_command u)) as [c'|e];
             [destruct (returncode c' =? 0)%Z; [|destruct (Bytes.decode _)]|];
             cbn [snd app commands filter];
             rewrite is_approve_approve, is_approve_merge;
             (split; [now apply events_merge | reflexivity]).
        -- rewrite (process_approve_failed w pr _ u past c Ht Hu Hm Hans Hrc).
           destruct (Bytes.decode _); cbn [snd commands filter];
             rewrite is_approve_approve;
             (split; [now apply events_approve | reflexivity]).
      * rewrite (process_approve_raised w pr _ u past e Ht Hu Hm Hans).
        cbn [snd commands filter]. rewrite is_approve_approve.
        split; [now apply events_approve | reflexivity].
    + rewrite (process_skip w pr _ u past Ht Hu Hm).
      split; [apply events_skip | reflexivity].
  - destruct (process_non_record pr past Hrec) as (e & -> & _).
    split; [apply events_none|].
    unfold is_record, approve_of in *.
    destruct (Py.getitem pr "title") as [[]|]; try reflexivity;
      destruct (Py.getitem pr "url"); try reflexivity; discriminate.
Qed.

Lemma approvals_app (t1 t2 : trace) :
  approvals (t1 ++ t2)%list = (approvals t1 ++ approvals t2)%list.
Proof. unfold approvals. now rewrite commands_app, filter_app. Qed.

Lemma merges_app (t1 t2 : trace) :
  merges (t1 ++ t2)%list = (merges t1 ++ merges t2)%list.
Proof. unfold merges. now rewrite commands_app, filter_app. Qed.


(** A loop over any items adds the events of its calls, one after the
    other; its approve commands are an initial stretch of those the items
    call for, and all of them when the loop runs to its end. *)
Lemma for_each_events items past :
  exists ts rest,
    snd (for_each items (process_pull_request w) past) = List.concat ts /\
    Forall record_events ts /\
    flat_map approve_of items
      = (approvals (snd (for_each items (process_pull_request w) past)) ++ rest)%list /\
    (fst (for_each items (process_pull_request w) past) = Return tt -> rest = []).
Proof.
  revert past; induction items as [|pr items IH]; intros past.
  - exists [], []. repeat split. constructor.
  - cbn [for_each flat_map]. unfold bind.
    destruct (process_events pr past) as [Hev Happ].
    destruct (process_pull_request w pr past) as [[[]|e] t]; cbn [snd] in Hev, Happ.
    + destruct (IH (past ++ t)%list) as (ts & rest & Hts & Hall & Hpre & Hret).
      destruct (for_each items _ _) as [r t']. cbn [fst snd] in *. subst t'.
      exists (t :: ts), rest. cbn [List.concat].
      rewrite approvals_app, Happ, Hpre, <- app_assoc.
      repeat split; [now constructor | exact Hret].
    + exists [t], (flat_map approve_of items). cbn [fst snd List.concat].
      rewrite app_nil_r, Happ.
      repeat split; [now repeat constructor | discriminate].
Qed.

(** Every run of [main]: the search, then log entries only, then the
    events of the calls of [process_pull_request]. *)
Lemma main_events past :
  exists logs ts,
    snd (main w past) = (Run search_command :: logs ++ List.concat ts)%list /\
    commands logs = [] /\
    Forall record_events ts.
Proof.
  rewrite main_unfold.
  pose proof (fetch_unfold w past) as Hfetch.
  assert (Hshape : exists logs,
            snd (fetch_pull_requests w past) = Run search_command :: logs /\
            commands logs = []).
  { rewrite Hfetch.
    destruct (answer w past search_command) as [c|e];
      [destruct (negb _); [destruct (Bytes.decode _) | destruct (prs_json w _)]|];
      cbn [snd]; eexists; split; reflexivity. }
  destruct Hshape as (logs & Hlogs & Hquiet).
  destruct (fetch_pull_requests w past) as [[v|e] t0]; cbn [snd] in Hlogs; subst t0.
  - destruct (negb (Py.truthy v)).
    + exists (logs ++ [Log WARNING "No pull requests found"])%list, [].
      cbn [snd List.concat]. rewrite app_nil_r, commands_app, Hquiet.
      repeat split. constructor.
    + destruct (Py.iter v) as [items|e].
      * destruct (for_each_events items (past ++ Run search_command :: logs)%list)
          as (ts & rest & Hts & Hall & _).
        destruct (for_each items _ _) as [r t]. cbn [snd] in *. subst t.
        now exists logs, ts.
      * exists logs, []. cbn [snd List.concat]. rewrite app_nil_r.
        repeat split; [assumption | constructor].
  - exists logs, []. cbn [snd List.concat]. rewrite app_nil_r.
    repeat split; [assumption | constructor].
Qed.

Lemma record_events_commands t :
  record_events t ->
  Forall (fun c => is_approve c || is_merge c = true) (commands t) /\
  List.length (merges t) <= List.length (approvals t).
Proof.
  unfold merges, approvals.
  intros [ | title | u tail Htail | u tail Htail ]; cbn [commands filter];
    rewrite ?Htail; cbn [filter];
    rewrite ?is_approve_approve, ?is_merge_approve, ?is_approve_merge,
      ?is_merge_merge; cbn [List.length];
    split; try lia; repeat constructor.
Qed.

Lemma batch_commands (ts : list trace) :
  Forall record_events ts ->
  Forall (fun c => is_approve c || is_merge c = true) (commands (List.concat ts)) /\
  List.length (merges (List.concat ts)) <= List.length (approvals (List.concat ts)).
Proof.
  induction 1 as [|t ts Ht _ [IHc IHn]]; cbn [List.concat].
  - split; [constructor | reflexivity].
  - destruct (record_events_commands t Ht) as [Hc Hn].
    rewrite commands_app, merges_app, approvals_app, !length_app.
    split; [now apply Forall_app | lia].
Qed.

(** Where no merge command stands on its own. *)
Lemma quiet_has_no_run (t t1 t2 : trace) c :
  commands t = [] -> t <> (t1 ++ Run c :: t2)%list.
Proof.
  intros Hq ->. rewrite commands_app in Hq. cbn in Hq.
  symmetry in Hq. now apply app_cons_not_nil in Hq.
Qed.

Lemma guarded_quiet t : commands t = [] -> merges_guarded t.
Proof. intros Hq t1 c t2 Ht. now contradiction (quiet_has_no_run t t1 t2 c Hq). Qed.

Lemma guarded_app a b :
  merges_guarded a -> merges_guarded b -> merges_guarded (a ++ b)%list.
Proof.
  intros Ha Hb t1 c t2 Ht Hc.
  apply app_split_at in Ht as [(t2' & Ht & _) | (t1' & -> & Ht)].
  - exact (Ha t1 c t2' Ht Hc).
  - destruct (Hb t1' c t2 Ht Hc) as (u & t1'' & -> & ->).
    exists u, (a ++ t1'')%list. now rewrite app_assoc.
Qed.

Lemma guarded_record t : record_events t -> merges_guarded t.
Proof.
  intros [ | title | u tail Htail | u tail Htail ] t1 c t2 Ht Hc.
  - now apply app_cons_not_nil in Ht.
  - destruct t1 as [|x t1]; [discriminate|].
    injection Ht as _ Ht. now apply app_cons_not_nil in Ht.
  - destruct t1 as [|x t1]; cbn [app] in Ht; injection Ht as Hx Ht.
    + subst c. now rewrite is_merge_approve in Hc.
    + now contradiction (quiet_has_no_run tail t1 t2 c Htail).
  - destruct t1 as [|x [|y [|z t1]]]; cbn [app] in Ht.
    + injection Ht as Hx _. subst c. now rewrite is_merge_approve in Hc.
    + discriminate.
    + injection Ht as Hx Hy Hz _. subst x y c. exists u, []. split; reflexivity.
    + injection Ht as _ _ _ Ht.
      now contradiction (quiet_has_no_run tail t1 t2 c Htail).
Qed.

Lemma guarded_batch (ts : list trace) :
  Forall record_events ts -> merges_guarded (List.concat ts).
Proof.
  induction 1 as [|t ts Ht _ IH]; cbn [List.concat].
  - now apply guarded_quiet.
  - apply guarded_app; [now apply guarded_record | exact IH].
Qed.

(** A sequence with an item that is not a record does not run to its
    end. *)
Lemma for_each_non_records items past :
  forallb is_record items = false ->
  exists e, fst (for_each items (process_pull_request w) past) = Raise e.
Proof.
  revert past; induction items as [|pr items IH]; intros past; [discriminate|].
  cbn [forallb for_each]. unfold bind. intros Hall.
  destruct (is_record pr) eqn:Hrec.
  - destruct (process_pull_request w pr past) as [[[]|e] t].
    + destruct (IH (past ++ t)%list Hall) as (e & He).
      destruct (for_each items _ _) as [r t']. now exists e.
    + now exists e.
  - destruct (process_non_record pr past Hrec) as (e & -> & _). now exists e.
Qed.



End Runs.

(** What the script does depends on the world through the outcomes of the
    commands (the exception, or the return code and the error output of a
    command that fails) and the file. *)
Section Answers.

Context {B : Builtins} (w1 w2 : world) (Hsame : same_answers w1 w2).

Lemma answer_same past command :
  same_outcome (answer w1 past command) (answer w2 past command).
Proof.
  unfold answer. destruct (Str.has_nul command); [reflexivity|].
  apply Hsame.
Qed.

Lemma process_same pr past :
  process_pull_request w1 pr past = process_pull_request w2 pr past.
Proof.
  unfold process_pull_request.
  destruct (Py.getitem pr "title") as [title|e]; [|reflexivity].
  rewrite !bind_lift_return.
  destruct (Py.getitem pr "url") as [u|e]; [|reflexivity].
  rewrite !bind_lift_return.
  destruct (keyword_match title) as [[]|e]; [| |reflexivity];
    rewrite !bind_lift_return; cbn [negb]; [|reflexivity].
  rewrite !bind_run_command.
  pose proof (answer_same past (approve_command u)) as Ha.
  destruct (answer w1 past (approve_command u)) as [c1|e1],
           (answer w2 past (approve_command u)) as [c2|e2];
    cbn [same_outcome] in Ha; try contradiction; [|now subst].
  destruct Ha as [Hrc Herr]. rewrite <- Hrc.
  destruct (returncode c1 =? 0)%Z eqn:Hz; cbn [negb].
  - rewrite !bind_logging, !bind_run_command.
    pose proof (answer_same
                  ((past ++ [Run (approve_command u)]) ++
                   [Log INFO ("Successfully approved PR: " ++ Py.format u)])%list
                  (merge_command u)) as Hb.
    destruct (answer w1 _ (merge_command u)) as [c1'|e1'],
             (answer w2 _ (merge_command u)) as [c2'|e2'];
      cbn [same_outcome] in Hb; try contradiction; [|now subst].
    destruct Hb as [Hrc' Herr']. rewrite <- Hrc'.
    destruct (returncode c1' =? 0)%Z eqn:Hz'; [reflexivity|].
    apply Z.eqb_neq in Hz'. now rewrite <- (Herr' Hz').
  - apply Z.eqb_neq in Hz. now rewrite <- (Herr Hz).
Qed.

Lemma for_each_same items past :
  for_each items (process_pull_request w1) past
    = for_each items (process_pull_request w2) past.
Proof.
  revert past; induction items as [|pr items IH]; intros past; [reflexivity|].
  cbn [for_each]. unfold bind. rewrite process_same.
  destruct (process_pull_request w2 pr past) as [[[]|e] t]; [|reflexivity].
  now rewrite IH.
Qed.

Lemma fetch_same past :
  fetch_pull_requests w1 past = fetch_pull_requests w2 past.
Proof.
  rewrite !fetch_unfold.
  pose proof (answer_same past search_command) as Ha.
  destruct Hsame as (_ & Hfile). rewrite <- Hfile.
  destruct (answer w1 past search_command) as [c1|e1],
           (answer w2 past search_command) as [c2|e2];
    cbn [same_outcome] in Ha; try contradiction; [|now subst].
  destruct Ha as [Hrc Herr]. rewrite <- Hrc.
  destruct (returncode c1 =? 0)%Z eqn:Hz; cbn [negb]; [reflexivity|].
  apply Z.eqb_neq in Hz. now rewrite <- (Herr Hz).
Qed.

End Answers.

(* ================================================================== *)
(** ** Beyond the listed claims: properties of the script *)

(** X1. When the search command returns a non-zero code the file is not
    read, whatever it holds, and the search stays the only command of the
    run: if the error output decodes, [main] logs it, logs that there are no
    pull requests and returns; if it does not decode, [main] raises
    [UnicodeDecodeError] with nothing logged. *)
Theorem search_failure_ends_the_run {B : Builtins} (w : world) (past : trace)
    (c : completed) :
  answer w past search_command = Return c ->
  returncode c <> 0%Z ->
  main w past
    = match Bytes.decode (stderr c) with
      | Some text =>
          (Return tt,
           [Run search_command;
            Log ERROR ("Failed to search PRs: " ++ text);
            Log WARNING "No pull requests found"])
      | None => (Raise UnicodeDecodeError, [Run search_command])
      end.
Proof.
  intros Hans Hrc. apply Z.eqb_neq in Hrc.
  rewrite main_unfold, fetch_unfold, Hans, Hrc. cbn [negb].
  now destruct (Bytes.decode _).
Qed.

Lemma search_failure_ends_the_run_witness :
  @main Sample.builtins Sample.search_down []
    = (Return tt,
       [Run search_command;
        Log ERROR ("Failed to search PRs: " ++ "no network");
        Log WARNING "No pull requests found"]).
Proof.
  apply (@search_failure_ends_the_run Sample.builtins Sample.search_down []
           (Sample.failed "no network")).
  - reflexivity.
  - vm_compute. discriminate.
Defined.

(** X2. An item that is not a record stops the batch where it stands.
    Wherever it is processed it raises the same exception ([KeyError],
    [TypeError] or [AttributeError]) before any command or log entry of its
    own; the items after it play no part in the run; and when the items
    before it ran to their end, the batch ends in that exception with their
    events and nothing more. *)
Theorem non_record_stops_the_batch {B : Builtins} (w : world)
    (before : list pyval) (pr : pyval) (after : list pyval) (past : trace) :
  is_record pr = false ->
  exists e,
    (e = KeyError "title" \/ e = KeyError "url" \/
     e = TypeError \/ e = AttributeError) /\
    (forall past', process_pull_request w pr past' = (Raise e, [])) /\
    for_each (before ++ pr :: after) (process_pull_request w) past
      = for_each (before ++ [pr]) (process_pull_request w) past /\
    (forall t,
       for_each before (process_pull_request w) past = (Return tt, t) ->
       for_each (before ++ pr :: after) (process_pull_request w) past
         = (Raise e, t)).
Proof.
  intros Hpr.
  destruct (process_non_record w pr past Hpr) as (e & Hrun & He).
  assert (Hany : forall past', process_pull_request w pr past' = (Raise e, []))
    by (intros past'; now rewrite (process_non_record_anywhere w pr past' past Hpr)).
  exists e. split; [exact He|]. split; [exact Hany|].
  assert (Hcut : forall rest,
            for_each (before ++ pr :: rest) (process_pull_request w) past
              = match for_each before (process_pull_request w) past with
                | (Return _, t) => (Raise e, t)
                | (Raise x, t) => (Raise x, t)
                end).
  { intros rest. rewrite for_each_app.
    destruct (for_each before (process_pull_request w) past) as [[[]|x] t];
      [|reflexivity].
    cbn [for_each]. unfold bind. now rewrite Hany, app_nil_r. }
  split.
  - now rewrite !Hcut.
  - intros t Ht. now rewrite Hcut, Ht.
Qed.

Lemma non_record_stops_the_batch_witness :
  exists e,
    (e = KeyError "title" \/ e = KeyError "url" \/
     e = TypeError \/ e = AttributeError) /\
    (forall past',
       @process_pull_request Sample.builtins Sample.granted
         (PDict [("url", PStr "u1")]) past' = (Raise e, [])) /\
    for_each ([Sample.other] ++ PDict [("url", PStr "u1")] :: [Sample.matching])
      (@process_pull_request Sample.builtins Sample.granted) []
      = for_each ([Sample.other] ++ [PDict [("url", PStr "u1")]])
          (@process_pull_request Sample.builtins Sample.granted) [] /\
    (forall t,
       for_each [Sample.other]
         (@process_pull_request Sample.builtins Sample.granted) []
         = (Return tt, t) ->
       for_each ([Sample.other] ++ PDict [("url", PStr "u1")] :: [Sample.matching])
         (@process_pull_request Sample.builtins Sample.granted) []
         = (Raise e, t)).
Proof.
  apply (@non_record_stops_the_batch Sample.builtins Sample.granted
           [Sample.other] (PDict [("url", PStr "u1")]) [Sample.matching] []).
  reflexivity.
Defined.

(** X3. When the search returned zero and the file it left is not well
    shaped (it cannot be read, or it holds something other than text that
    does not parse, a value that counts as false, or a sequence of records),
    [main] raises, whatever the other commands come to: no such run returns
    normally. *)
Theorem ill_shaped_file_raises {B : Builtins} (w : world) (past : trace)
    (c : completed) :
  answer w past search_command = Return c ->
  returncode c = 0%Z ->
  well_shaped (prs_json w (commands past ++ [search_command])%list) = false ->
  exists e, fst (main w past) = Raise e.
Proof.
  intros Hans Hrc Hshape. apply Z.eqb_eq in Hrc.
  pose proof (fetch_unfold w past) as Hfetch.
  rewrite Hans, Hrc in Hfetch. cbn [negb] in Hfetch.
  rewrite main_unfold, Hfetch.
  destruct (prs_json w _) as [v|text|x]; cbn [well_shaped] in Hshape;
    [| discriminate | now exists x].
  destruct v as [|b|n|f|s|items|entries]; cbn [Py.truthy Py.iter] in *.
  - discriminate.
  - destruct b; [now exists TypeError | discriminate].
  - destruct (n =? 0)%Z; [discriminate | now exists TypeError].
  - destruct f; try discriminate; now exists TypeError.
  - destruct s as [|ch s]; [discriminate|]. cbn [String.eqb negb Str.chars].
    destruct (chars_from_cons (String ch EmptyString) s) as (x & xs & ->).
    cbn [map for_each]. unfold bind. cbn. now exists TypeError.
  - destruct items as [|pr0 prs0]; [discriminate|]. cbn [negb].
    destruct (for_each_non_records w (pr0 :: prs0)
                (past ++ [Run search_command])%list Hshape) as (e & He).
    destruct (for_each (pr0 :: prs0) _ _) as [r t]. cbn [fst] in *.
    now exists e.
  - destruct entries as [|[k x] entries]; [discriminate|].
    cbn [negb map for_each]. unfold bind. cbn. now exists TypeError.
Qed.

Lemma ill_shaped_file_raises_witness :
  exists e, fst (@main Sample.builtins Sample.untitled []) = Raise e.
Proof.
  apply (@ill_shaped_file_raises Sample.builtins Sample.untitled [] Sample.ok);
    reflexivity.
Defined.

(** X4. When the file holds a value that is not a sequence, [main] never
    reaches a record: a value that counts as false ([null], [false], zero,
    the empty string, the empty object) ends the run with the warning, any
    other (an object, a string, a number, [true]) makes it raise
    [TypeError]; either way nothing is added after the fetch but the
    warning. *)
Theorem non_sequence_is_refused {B : Builtins} (w : world) (past : trace)
    (v : pyval) (t0 : trace) :
  fetch_pull_requests w past = (Return v, t0) ->
  (forall items, v <> PList items) ->
  main w past
    = if Py.truthy v
      then (Raise TypeError, t0)
      else (Return tt, (t0 ++ [Log WARNING "No pull requests found"])%list).
Proof.
  intros Hfetch Hnot. rewrite main_unfold, Hfetch.
  destruct v as [|b|n|f|s|items|entries].
  - reflexivity.
  - now destruct b.
  - cbn [Py.truthy Py.iter]. now destruct (n =? 0)%Z.
  - now destruct f.
  - cbn [Py.truthy Py.iter].
    destruct s as [|c s]; [reflexivity|]. cbn [String.eqb negb Str.chars].
    destruct (chars_from_cons (String c EmptyString) s) as (x & xs & ->).
    cbn [map for_each]. unfold bind. cbn. now rewrite app_nil_r.
  - now contradiction (Hnot items).
  - cbn [Py.truthy Py.iter].
    destruct entries as [|[k x] entries]; [reflexivity|].
    cbn [negb map for_each]. unfold bind. cbn. now rewrite app_nil_r.
Qed.

Lemma non_sequence_is_refused_witness :
  @main Sample.builtins Sample.api_error []
    = (Raise TypeError, [Run search_command]) /\
  @main Sample.builtins Sample.null_file []
    = (Return tt, [Run search_command; Log WARNING "No pull requests found"]).
Proof.
  split.
  - apply (@non_sequence_is_refused Sample.builtins Sample.api_error []
             (PDict [("message", PStr "Bad credentials")]) [Run search_command]);
      [reflexivity | discriminate].
  - apply (@non_sequence_is_refused Sample.builtins Sample.null_file []
             PNone [Run search_command]); [reflexivity | discriminate].
Defined.

(** X5. In every run, whatever the commands return and whatever the file
    holds, also when the run ends in an exception: the first command is the
    search, every other command is an approve or a merge command, and there
    are never more merge commands than approve commands. *)
Theorem only_search_approve_merge_run {B : Builtins} (w : world) (past : trace) :
  exists rest,
    commands (snd (main w past)) = search_command :: rest /\
    Forall (fun c => is_approve c || is_merge c = true) rest /\
    List.length (merges (snd (main w past)))
      <= List.length (approvals (snd (main w past))).
Proof.
  destruct (main_events w past) as (logs & ts & -> & Hquiet & Hall).
  destruct (batch_commands ts Hall) as [Hc Hn].
  exists (commands (List.concat ts)).
  change (Run search_command :: logs ++ List.concat ts)%list
    with ([Run search_command] ++ logs ++ List.concat ts)%list.
  rewrite !merges_app, !approvals_app, !commands_app, Hquiet.
  unfold merges at 1 2, approvals at 1 2. rewrite Hquiet.
  cbn [commands filter app]. rewrite is_merge_search, is_approve_search.
  cbn [app]. repeat split; assumption.
Qed.

(** X6. In every run, no merge command is run on its own: at every place
    of the events where a command of the merge kind stands, it is the merge
    command of a url, and the two events right before it are the approve
    command of that url and the notice that the approval went through. *)
Theorem merge_follows_its_approval {B : Builtins} (w : world) (past : trace)
    (t1 : trace) (c : string) (t2 : trace) :
  snd (main w past) = (t1 ++ Run c :: t2)%list ->
  is_merge c = true ->
  exists repo_url t1',
    c = merge_command repo_url /\
    t1 = (t1' ++ [Run (approve_command repo_url);
                  Log INFO ("Successfully approved PR: " ++ Py.format repo_url)])%list.
Proof.
  destruct (main_events w past) as (logs & ts & -> & Hquiet & Hall).
  assert (Hguard : merges_guarded
                     ([Run search_command] ++ logs ++ List.concat ts)%list).
  { apply guarded_app; [|apply guarded_app].
    - intros [|x u1] c' u2 Hu Hc'.
      + injection Hu as <- _. now rewrite is_merge_search in Hc'.
      + injection Hu as _ Hu. now apply app_cons_not_nil in Hu.
    - now apply guarded_quiet.
    - now apply guarded_batch. }
  intros Ht Hc. exact (Hguard t1 c t2 Ht Hc).
Qed.

Lemma merge_follows_its_approval_witness :
  exists repo_url t1',
    "gh pr merge u2 --squash --auto --merge --delete-branch -A email"
      = @merge_command Sample.builtins repo_url /\
    [Run search_command;
     Run ("gh pr review u2 --approve -b " ++ dquote ++ "lit" ++ dquote);
     Log INFO "Successfully approved PR: u2"]
      = (t1' ++ [Run (@approve_command Sample.builtins repo_url);
                 Log INFO ("Successfully approved PR: "
                             ++ @Py.format Sample.builtins repo_url)])%list.
Proof.
  apply (@merge_follows_its_approval Sample.builtins Sample.merge_refused []
           [Run search_command;
            Run ("gh pr review u2 --approve -b " ++ dquote ++ "lit" ++ dquote);
            Log INFO "Successfully approved PR: u2"]
           "gh pr merge u2 --squash --auto --merge --delete-branch -A email"
           [Log ERROR "Failed to merge PR u2: conflict";
            Log INFO ("Skipping PR " ++ dquote ++ "Fix bug" ++ dquote
                        ++ " - no keyword match")]);
    reflexivity.
Defined.

(** X7. The approve commands of a run over a fetched sequence are always
    an initial stretch of the approve commands its items call for (one for
    each record whose title matches the keyword, in the order of the
    sequence), and they are all of them whenever [main] returns normally:
    no matching record is then passed over, none is approved twice, and no
    other url is approved. *)
Theorem approvals_are_the_matching_records {B : Builtins} (w : world)
    (past : trace) (prs : list pyval) (t0 : trace) :
  fetch_pull_requests w past = (Return (PList prs), t0) ->
  exists rest,
    flat_map approve_of prs = (approvals (snd (main w past)) ++ rest)%list /\
    (fst (main w past) = Return tt -> rest = []).
Proof.
  intros Hfetch.
  pose proof (fetch_commands w past) as Hcmd. rewrite Hfetch in Hcmd.
  cbn [snd] in Hcmd.
  assert (H0 : approvals t0 = []) by (unfold approvals; now rewrite Hcmd).
  destruct prs as [|pr prs].
  - exists []. rewrite main_unfold, Hfetch. cbn [Py.truthy negb snd flat_map].
    now rewrite approvals_app, H0.
  - rewrite (main_on_fetched w pr prs past t0 Hfetch). cbn [fst snd].
    destruct (for_each_events w (pr :: prs) (past ++ t0)%list)
      as (ts & rest & _ & _ & Hpre & Hret).
    exists rest. now rewrite approvals_app, H0.
Qed.

Lemma approvals_are_the_matching_records_witness :
  exists rest,
    flat_map (@approve_of Sample.builtins) [Sample.matching; Sample.other]
      = (approvals (snd (@main Sample.builtins Sample.denied [])) ++ rest)%list /\
    (fst (@main Sample.builtins Sample.denied []) = Return tt -> rest = []).
Proof.
  apply (@approvals_are_the_matching_records Sample.builtins Sample.denied []
           [Sample.matching; Sample.other] [Run search_command]).
  reflexivity.
Defined.

(** X8. The run reads nothing of a command but whether it raised and, if
    not, its return code and, when that code is not zero, its error output:
    two worlds that agree on these and on the file give the same result and
    the same events, whatever the commands write to their output stream and
    whatever the commands that succeed write to their error stream. *)
Theorem run_ignores_output {B : Builtins} (w1 w2 : world) (past : trace) :
  same_answers w1 w2 ->
  main w1 past = main w2 past.
Proof.
  intros Hsame. rewrite !main_unfold, (fetch_same w1 w2 Hsame).
  destruct (fetch_pull_requests w2 past) as [[v|e] t0]; [|reflexivity].
  destruct (negb _); [reflexivity|].
  destruct (Py.iter v) as [items|e]; [|reflexivity].
  now rewrite (for_each_same w1 w2 Hsame).
Qed.

Lemma run_ignores_output_witness :
  @main Sample.builtins Sample.chatty [] = @main Sample.builtins Sample.granted [].
Proof.
  apply (@run_ignores_output Sample.builtins Sample.chatty Sample.granted []).
  split.
  - intros past command.
    cbn [shell Sample.chatty Sample.granted Sample.world_of].
    destruct (is_approve command); [|destruct (is_merge command)];
      (split; [reflexivity | intros H; now contradiction H]).
  - reflexivity.
Defined.



(** X10. Of each item the loop reads the [title] and the [url] and nothing
    else: two sequences whose items agree, one by one, on what [pr['title']]
    and [pr['url']] give (the value or the exception) are processed alike,
    with the same result and the same events. *)
Theorem only_title_and_url_are_read {B : Builtins} (w : world)
    (prs1 prs2 : list pyval) (past : trace) :
  Forall2 (fun a b =>
             Py.getitem a "title" = Py.getitem b "title" /\
             Py.getitem a "url" = Py.getitem b "url") prs1 prs2 ->
  for_each prs1 (process_pull_request w) past
    = for_each prs2 (process_pull_request w) past.
Proof.
  intros Hsame. revert past.
  induction Hsame as [|a b prs1 prs2 [Ht Hu] _ IH]; intros past; [reflexivity|].
  cbn [for_each]. unfold bind.
  assert (Hrun : process_pull_request w a past = process_pull_request w b past)
    by (unfold process_pull_request; now rewrite Ht, Hu).
  rewrite Hrun.
  destruct (process_pull_request w b past) as [[[]|e] t]; [|reflexivity].
  now rewrite IH.
Qed.

Lemma only_title_and_url_are_read_witness :
  for_each [Sample.matching] (@process_pull_request Sample.builtins Sample.granted) []
    = for_each
        [PDict [("number", PInt 7);
                ("title", PStr "Add YOURFAVOURITEKEYWORD support");
                ("url", PStr "u2")]]
        (@process_pull_request Sample.builtins Sample.granted) [].
Proof.
  apply (@only_title_and_url_are_read Sample.builtins Sample.granted).
  repeat constructor.
Defined.

(** X11. A command that returns a non-zero code with error output that
    decodes does not stop the batch.  For a record whose title matches: when
    the approve command fails so, the failure is logged and the loop goes on
    with the records after it; when the approve command returns zero and the
    merge command fails so, the same. *)
Theorem logged_failure_does_not_stop_the_batch {B : Builtins} (w : world)
    (pr title repo_url : pyval) (rest : list pyval) (past : trace)
    (c : completed) :
  Py.getitem pr "title" = Return title ->
  Py.getitem pr "url" = Return repo_url ->
  keyword_match title = Return true ->
  answer w past (approve_command repo_url) = Return c ->
  (forall text,
     returncode c <> 0%Z ->
     Bytes.decode (stderr c) = Some text ->
     let t := [Run (approve_command repo_url);
               Log ERROR ("Failed to approve PR " ++ Py.format repo_url
                            ++ ": " ++ text)] in
     for_each (pr :: rest) (process_pull_request w) past
       = (fst (for_each rest (process_pull_request w) (past ++ t)%list),
          (t ++ snd (for_each rest (process_pull_request w) (past ++ t)%list))%list)) /\
  (forall c' text,
     returncode c = 0%Z ->
     answer w (past ++ approved_prefix repo_url)%list (merge_command repo_url)
       = Return c' ->
     returncode c' <> 0%Z ->
     Bytes.decode (stderr c') = Some text ->
     let t := (approved_prefix repo_url ++
               [Run (merge_command repo_url);
                Log ERROR ("Failed to merge PR " ++ Py.format repo_url
                             ++ ": " ++ text)])%list in
     for_each (pr :: rest) (process_pull_request w) past
       = (fst (for_each rest (process_pull_request w) (past ++ t)%list),
          (t ++ snd (for_each rest (process_pull_request w) (past ++ t)%list))%list)).
Proof.
  intros Ht Hu Hm Hans. split.
  - intros text Hrc Hdec t. cbn [for_each]. unfold bind.
    rewrite (process_approve_failed w pr title repo_url past c Ht Hu Hm Hans Hrc),
      Hdec.
    fold t. now destruct (for_each rest _ _).
  - intros c' text Hrc Hans' Hrc' Hdec t. cbn [for_each]. unfold bind.
    rewrite (process_approved w pr title repo_url past c Ht Hu Hm Hans Hrc),
      Hans'.
    apply Z.eqb_neq in Hrc'. rewrite Hrc', Hdec.
    fold t. now destruct (for_each rest _ _).
Qed.

Lemma logged_failure_does_not_stop_the_batch_witness :
  for_each [Sample.matching; Sample.other]
    (@process_pull_request Sample.builtins Sample.denied) []
    = (Return tt,
       [Run ("gh pr review u2 --approve -b " ++ dquote ++ "lit" ++ dquote);
        Log ERROR "Failed to approve PR u2: denied";
        Log INFO ("Skipping PR " ++ dquote ++ "Fix bug" ++ dquote
                    ++ " - no keyword match")]).
Proof.
  refine (proj1 (@logged_failure_does_not_stop_the_batch Sample.builtins
                   Sample.denied Sample.matching
                   (PStr "Add YOURFAVOURITEKEYWORD support") (PStr "u2")
                   [Sample.other] [] (Sample.failed "denied")
                   eq_refl eq_refl eq_refl eq_refl) "denied" _ _).
  - vm_compute. discriminate.
  - reflexivity.
Defined.
